(** * Mailbox: persist-then-enqueue hand-off between the event source and the
    scheduler (airflow/utils/mailbox.py).

    The Python class [Mailbox] is embedded as state-passing functions over a
    [World] that holds the mailbox object, the message store and the log.
    Every method is a computation in the monad [M], whose results tell a
    normal return from a raised exception and from a call that never
    returns (a blocking [queue.get] on a queue nobody fills). *)

From Stdlib Require Import ZArith QArith Lia Strings.Byte.
From stdpp Require Import base option list gmap strings.

Local Open Scope string_scope.
Local Open Scope list_scope.
Local Open Scope Z_scope.

(** ** Python values, exceptions and outcomes *)

Definition bytes := list Byte.byte.

(** [notification_service.base_notification.BaseEvent]: the fields the
    mailbox reads are [version] and [create_time], both of which may be
    [None]. *)
Record BaseEvent := mkBaseEvent {
  key : string;
  value : string;
  event_type : string;
  version : option Z;
  create_time : option Z
}.

(** [airflow.models.message.IdentifiedMessage(serialized_message, msg_id)]. *)
Record IdentifiedMessage := mkIdentifiedMessage {
  serialized_message : bytes;
  msg_id : Z
}.

(** The Python objects that flow through the mailbox: [None], an event, an
    identified message, or any other object (named by its repr). *)
Inductive pyobj :=
| PyNone
| PyEvent (e : BaseEvent)
| PyIdentified (im : IdentifiedMessage)
| PyOther (repr : string).

(** A raised exception: its class name and whether the class derives from
    [Exception] (what [except Exception] tests); [KeyboardInterrupt] and
    [SystemExit] do not. *)
Record exn := mkExn {
  exn_class : string;
  is_Exception : bool
}.

Definition Empty : exn := mkExn "queue.Empty" true.
Definition ValueError : exn := mkExn "ValueError" true.
Definition TypeError : exn := mkExn "TypeError" true.
Definition OverflowError : exn := mkExn "OverflowError" true.

Inductive outcome (A : Type) :=
| Returns (a : A)
| Raises (e : exn)
| Blocks.
Arguments Returns {A} a.
Arguments Raises {A} e.
Arguments Blocks {A}.

(** State-passing computations with exceptions. *)
Definition M (S A : Type) : Type := S -> outcome A * S.

Definition ret {S A} (a : A) : M S A := fun s => (Returns a, s).
Definition raise {S A} (e : exn) : M S A := fun s => (Raises e, s).
Definition block {S A} : M S A := fun s => (Blocks, s).

Definition bind {S A B} (m : M S A) (k : A -> M S B) : M S B :=
  fun s =>
    match m s with
    | (Returns a, s') => k a s'
    | (Raises e, s') => (Raises e, s')
    | (Blocks, s') => (Blocks, s')
    end.

Notation "'let*' x ':=' m 'in' k" := (bind m (fun x => k))
  (at level 10, x name, m at level 100, k at level 200).
Notation "'run' m 'then' k" := (bind m (fun _ => k))
  (at level 10, m at level 100, k at level 200).

Definition gets {S A} (f : S -> A) : M S A := fun s => (Returns (f s), s).
Definition modify {S} (f : S -> S) : M S unit := fun s => (Returns tt, f s).

(** [try: body  except Exception as e: handler e]. An exception that is not
    an [Exception] passes through. *)
Definition try_except {S A} (body : M S A) (handler : exn -> M S A) : M S A :=
  fun s =>
    match body s with
    | (Raises e, s') =>
        if is_Exception e then handler e s' else (Raises e, s')
    | r => r
    end.

(** ** The message store *)

(** [airflow.models.message.MessageState]: only [QUEUED] is used here. *)
Inductive MessageState :=
| QUEUED
| OtherState (name : string).

(** A row of the [message] table. *)
Record Message := mkMessage {
  message_id : Z;
  message_data : bytes;
  message_state : MessageState;
  message_scheduling_job_id : option Z;
  message_queue_time : Z
}.

(** A row of the [event_progress] table, keyed by its scheduling job id. *)
Record EventProgress := mkEventProgress {
  last_event_time : Z;
  last_event_version : Z
}.

Record Database := mkDatabase {
  event_progress : gmap Z EventProgress;
  messages : list Message;
  next_message_id : Z
}.

(** Modelled from the spec: the SQLAlchemy session is not part of the
    sources. The store is "an external transactional store": a session
    works on a pending copy of the committed database; [commit] publishes
    the pending copy as a whole, [rollback] drops it. Each round trip to the
    store can fail, which [Faults] decides. *)
Record Session := mkSession {
  committed : Database;
  pending : Database
}.

Record Faults := mkFaults {
  merge_fault : option exn;
  add_fault : option exn;
  commit_fault : option exn
}.

Definition no_faults : Faults := mkFaults None None None.

Definition fail_with {S} (fault : option exn) : M S unit :=
  match fault with
  | Some e => raise e
  | None => ret tt
  end.

(** The key under which a merged progress row lands: the key it is given,
    or, when it is given [None], one the store assigns, which no row of the
    table has yet. *)
Definition progress_key (k : option Z) (d : Database) : Z :=
  match k with
  | Some j => j
  | None => fresh (dom (event_progress d))
  end.

Definition upsert_progress (k : option Z) (p : EventProgress) (d : Database)
  : Database :=
  mkDatabase (<[progress_key k d := p]> (event_progress d)) (messages d)
             (next_message_id d).

(** Modelled from the spec: [session.merge(progress)] upserts the row with
    the progress' key, which is [self.scheduling_job_id] as it is. With no
    job bound that key is [None]: the row is new to the store, which files
    it under an id of its own (or refuses it, which is a fault of the
    merge or of the commit). *)
Definition session_merge (f : Faults) (k : option Z) (p : EventProgress)
  : M Session unit :=
  run fail_with (merge_fault f) then
  modify (fun s => mkSession (committed s) (upsert_progress k p (pending s))).

(** Modelled from the spec: [session.add(message_obj)] inserts the envelope
    under a store-assigned, unique id, which the caller reads back from
    [message_obj.id] after the commit. *)
Definition session_add (f : Faults) (data : bytes) (st : MessageState)
    (job : option Z) (qt : Z) : M Session Z :=
  run fail_with (add_fault f) then
  let* i := gets (fun s => next_message_id (pending s)) in
  run modify (fun s =>
    let d := pending s in
    mkSession (committed s)
      (mkDatabase (event_progress d)
                  (messages d ++ [mkMessage i data st job qt])
                  (i + 1))) then
  ret i.

Definition session_commit (f : Faults) : M Session unit :=
  run fail_with (commit_fault f) then
  modify (fun s => mkSession (pending s) (pending s)).

Definition session_rollback : M Session unit :=
  modify (fun s => mkSession (committed s) (committed s)).

(** ** The mailbox *)

Record Mailbox := mkMailbox {
  queue : list IdentifiedMessage;
  scheduling_job_id : option Z
}.

Inductive LogRecord :=
| LogWarning (msg : string)
| LogError (msg : string) (e : exn).

Record World := mkWorld {
  self : Mailbox;
  db : Database;
  log : list LogRecord
}.

(** [Mailbox.__init__]: an empty queue and no job bound. *)
Definition Mailbox_init : Mailbox := mkMailbox [] None.

(** Modelled from the spec: [provide_session] is not part of the sources.
    "The store connection/transaction is scoped per call - acquired, used,
    released": the body runs on a fresh session over the store, and what it
    committed is what the store holds afterwards. *)
Definition provide_session {A} (body : M Session A) : M World A :=
  fun w =>
    match body (mkSession (db w) (db w)) with
    | (r, s) => (r, mkWorld (self w) (committed s) (log w))
    end.

Definition log_warning (msg : string) : M World unit :=
  modify (fun w => mkWorld (self w) (db w) (log w ++ [LogWarning msg])).

Definition log_error (msg : string) (e : exn) : M World unit :=
  modify (fun w => mkWorld (self w) (db w) (log w ++ [LogError msg e])).

(** Python truthiness of [self.scheduling_job_id]: [None] and [0] are
    falsy. *)
Definition truthy (k : option Z) : bool :=
  match k with
  | None => false
  | Some j => negb (j =? 0)
  end.

(** The world with [self.queue] holding [q]; nothing else changes. *)
Definition with_queue (q : list IdentifiedMessage) (w : World) : World :=
  mkWorld (mkMailbox q (scheduling_job_id (self w))) (db w) (log w).

(** [queue.Queue.put] on an unbounded queue: appends at the tail, never
    blocks. *)
Definition Queue_put (im : IdentifiedMessage) : M World unit :=
  modify (fun w => with_queue (queue (self w) ++ [im]) w).

(** The [timeout] argument as Python sees it: [None], a number with the
    exact value [t] (an [int] of any size, or a finite [float]), or an
    object that does not compare with [0]. The [float] infinities and NaN
    have no term. *)
Inductive timeout_arg :=
| TNone
| TNum (t : Q)
| TOther (repr : string).

Definition pop_head (im : IdentifiedMessage) (rest : list IdentifiedMessage)
  : M World IdentifiedMessage :=
  run modify (with_queue rest) then
  ret im.

(** [time() + timeout] turns the timeout into a [float]. The largest
    [float] is [2^1024 - 2^971]; the conversion rounds to the nearest
    [float], ties to even, so it raises [OverflowError] from
    [2^1024 - 2^970] on. *)
Definition float_overflows (t : Q) : bool :=
  Qle_bool (inject_Z (2 ^ 1024 - 2 ^ 970)) t.

(** What a waiting [get] sees on an empty queue: the item another thread
    puts while the call waits, if any. With an item the call wakes up and
    takes it; with none an untimed wait never returns and a timed one ends
    in [Empty] at expiry (a wait that the lock refuses as too long ends at
    once, in [OverflowError]: the mailbox treats the two alike). *)
Definition wait_on_empty (timed : bool) (arrival : option IdentifiedMessage)
  : M World IdentifiedMessage :=
  match arrival with
  | Some im => ret im
  | None => if timed then raise Empty else block
  end.

(** [queue.Queue.get(block=True, timeout)]: the sign of the timeout is
    checked and the end time is computed before the queue is looked at. *)
Definition Queue_get (timeout : timeout_arg)
    (arrival : option IdentifiedMessage) : M World IdentifiedMessage :=
  let* q := gets (fun w => queue (self w)) in
  match timeout with
  | TNone =>
      match q with
      | im :: rest => pop_head im rest
      | [] => wait_on_empty false arrival
      end
  | TOther _ => raise TypeError
  | TNum t =>
      if negb (Qle_bool 0 t) then raise ValueError
      else if float_overflows t then raise OverflowError
      else match q with
           | im :: rest => pop_head im rest
           | [] => wait_on_empty true arrival
           end
  end.

Section WithPickle.

(** [pickle.dumps] and [pickle.loads]: either the result or the exception
    they raise. *)
Variable dumps : pyobj -> exn + bytes.
Variable loads : bytes -> exn + pyobj.

Definition lift_result {S A} (r : exn + A) : M S A :=
  match r with
  | inl e => raise e
  | inr a => ret a
  end.

(** The guard of [_save_message_to_db]: the message is a [BaseEvent] whose
    [version] and [create_time] are both set. *)
Definition progress_of (message : pyobj) : option EventProgress :=
  match message with
  | PyEvent e =>
      match version e, create_time e with
      | Some v, Some t => Some (mkEventProgress t v)
      | _, _ => None
      end
  | _ => None
  end.

(** The body of the [try] in [_save_message_to_db]. [Message(message)]
    pickles the message into the row's [data] ("serialize the event
    payload"), which is where [dumps] may raise; [now] is what
    [timezone.utcnow()] returns. *)
Definition save_message_body (f : Faults) (now : Z) (mb : Mailbox)
    (message : pyobj) : M Session IdentifiedMessage :=
  run match progress_of message with
      | Some progress => session_merge f (scheduling_job_id mb) progress
      | None => ret tt
      end then
  let* data := lift_result (dumps message) in
  let* i := session_add f data QUEUED (scheduling_job_id mb) now in
  run session_commit f then
  ret (mkIdentifiedMessage data i).

Definition _save_message_to_db (f : Faults) (now : Z) (mb : Mailbox)
    (message : pyobj) : M Session IdentifiedMessage :=
  try_except (save_message_body f now mb message)
             (fun e => run session_rollback then raise e).

(** [send_message] has no [return]: its value is [None]. *)
Definition send_message (f : Faults) (now : Z) (message : pyobj)
  : M World pyobj :=
  let* mb := gets self in
  run (if negb (truthy (scheduling_job_id mb))
       then log_warning
              "scheduling_job_id not set, missing messages cannot be recovered."
       else ret tt) then
  let* identified_message := provide_session (_save_message_to_db f now mb message) in
  run Queue_put identified_message then
  ret PyNone.

Definition send_identified_message (message : IdentifiedMessage)
  : M World pyobj :=
  run Queue_put message then
  ret PyNone.

Definition get_message (arrival : option IdentifiedMessage) : M World pyobj :=
  let* identified_message := Queue_get TNone arrival in
  try_except
    (lift_result (loads (serialized_message identified_message)))
    (fun e =>
       run log_error "Error occurred when load message from database, %s" e
       then
       ret PyNone).

Definition get_message_with_timeout (timeout : timeout_arg)
    (arrival : option IdentifiedMessage) : M World pyobj :=
  try_except
    (let* im := Queue_get timeout arrival in ret (PyIdentified im))
    (fun e => ret PyNone).

Definition get_identified_message (arrival : option IdentifiedMessage)
  : M World pyobj :=
  get_message_with_timeout (TNum 1) arrival.

Definition length : M World Z :=
  gets (fun w => Z.of_nat (List.length (queue (self w)))).

Definition set_scheduling_job_id (j : option Z) : M World pyobj :=
  run modify (fun w => mkWorld (mkMailbox (queue (self w)) j) (db w) (log w))
  then
  ret PyNone.

End WithPickle.

(** ** Running a consumer *)

(** [n] successive calls of a retrieval method, collecting what they
    return. *)
Fixpoint drain (get : M World pyobj) (n : nat) : M World (list pyobj) :=
  match n with
  | O => ret []
  | S n' =>
      let* x := get in
      let* xs := drain get n' in
      ret (x :: xs)
  end.

(** The two ways a producer puts a message into the mailbox. *)
Inductive send_op :=
| ViaSendMessage (f : Faults) (now : Z) (message : pyobj)
| ViaSendIdentified (im : IdentifiedMessage).

Definition produce (dumps : pyobj -> exn + bytes) (op : send_op)
  : M World pyobj :=
  match op with
  | ViaSendMessage f now message => send_message dumps f now message
  | ViaSendIdentified im => send_identified_message im
  end.

(** The object a consumer should obtain for a send: the message itself for
    [send_message], what the payload decodes to for
    [send_identified_message]. *)
Definition delivers (loads : bytes -> exn + pyobj) (op : send_op)
    (o : pyobj) : Prop :=
  match op with
  | ViaSendMessage _ _ message => o = message
  | ViaSendIdentified im => loads (serialized_message im) = inr o
  end.

(** ** Post-states of a committed send *)

Definition advance_watermark (mb : Mailbox) (message : pyobj) (d : Database)
  : Database :=
  match progress_of message with
  | Some p => upsert_progress (scheduling_job_id mb) p d
  | None => d
  end.

Definition envelope_of (mb : Mailbox) (now : Z) (data : bytes) (d : Database)
  : Message :=
  mkMessage (next_message_id d) data QUEUED (scheduling_job_id mb) now.

Definition record_envelope (mb : Mailbox) (now : Z) (data : bytes)
    (d : Database) : Database :=
  mkDatabase (event_progress d)
             (messages d ++ [envelope_of mb now data d])
             (next_message_id d + 1).

(** ** A small pickle for running the mailbox on concrete inputs *)

#[global] Instance BaseEvent_eq_dec : EqDecision BaseEvent.
Proof. solve_decision. Defined.

Definition event_v1 : BaseEvent :=
  mkBaseEvent "k" "a" "t" (Some 1) (Some 100).
Definition event_v2 : BaseEvent :=
  mkBaseEvent "k" "b" "t" (Some 2) (Some 200).

Definition PicklingError : exn := mkExn "pickle.PicklingError" true.
Definition UnpicklingError : exn := mkExn "pickle.UnpicklingError" true.
Definition EOFError : exn := mkExn "EOFError" true.

(** Pickles [None] and the two sample events, refuses everything else. *)
Definition sample_dumps (o : pyobj) : exn + bytes :=
  match o with
  | PyNone => inr [x80; x04; x4e; x2e]
  | PyEvent e =>
      if decide (e = event_v1) then inr [x01]
      else if decide (e = event_v2) then inr [x02]
      else inl PicklingError
  | _ => inl PicklingError
  end.

Definition sample_loads (b : bytes) : exn + pyobj :=
  match b with
  | [] => inl EOFError
  | [x80; x04; x4e; x2e] => inr PyNone
  | [x01] => inr (PyEvent event_v1)
  | [x02] => inr (PyEvent event_v2)
  | _ => inl UnpicklingError
  end.

Definition fresh_db : Database := mkDatabase ∅ [] 1.

(** A new mailbox bound to job 1 over an empty store. *)
Definition world0 : World := mkWorld (mkMailbox [] (Some 1)) fresh_db [].

(** ** The value of [send_message] *)

(** The claim as the specification words it: a successful [send_message]
    hands the caller the identified message of the committed envelope. *)
Definition send_message_returns_identified
    (dumps : pyobj -> exn + bytes) (f : Faults) (now : Z) (message : pyobj)
    (w : World) : Prop :=
  forall r w',
    send_message dumps f now message w = (Returns r, w') ->
    exists envelope,
      last (messages (db w')) = Some envelope /\
      r = PyIdentified
            (mkIdentifiedMessage (message_data envelope)
                                 (message_id envelope)).

(** ** A store outage *)

Definition StoreFailure : exn := mkExn "sqlalchemy.exc.OperationalError" true.

(** The store is unreachable when the transaction commits. *)
Definition outage : Faults := mkFaults None None (Some StoreFailure).

(** ** The progress row over a run of sends *)

(** Rows are compared field by field; a job without a row is below every
    row. *)
Definition progress_le (p q : EventProgress) : Prop :=
  last_event_time p <= last_event_time q /\
  last_event_version p <= last_event_version q.

Definition row_le (a b : option EventProgress) : Prop :=
  match a, b with
  | None, _ => True
  | Some p, Some q => progress_le p q
  | Some _, None => False
  end.

(** The progress row of job [j] after each of the producer's sends, in
    order. A send that raises leaves the world it found, and the producer
    goes on with the next message. *)
Fixpoint ledger_trace (dumps : pyobj -> exn + bytes) (j : Z)
    (sends : list (Faults * Z * pyobj)) (w : World)
  : list (option EventProgress) :=
  match sends with
  | [] => []
  | (f, now, message) :: rest =>
      let w' := snd (send_message dumps f now message w) in
      event_progress (db w') !! j :: ledger_trace dumps j rest w'
  end.

(** Each row of the list is at least the one before it, starting from
    [cur]. *)
Fixpoint non_decreasing (cur : option EventProgress)
    (rows : list (option EventProgress)) : Prop :=
  match rows with
  | [] => True
  | r :: rest => row_le cur r /\ non_decreasing r rest
  end.

(** The messages that carry a [(create_time, version)] pair carry them in
    non-decreasing order, starting at or above [cur]. *)
Fixpoint in_order (cur : option EventProgress) (ms : list pyobj) : Prop :=
  match ms with
  | [] => True
  | m :: rest =>
      match progress_of m with
      | Some p => row_le cur (Some p) /\ in_order (Some p) rest
      | None => in_order cur rest
      end
  end.

(** The claim as the specification words it, for one send: the row of the
    bound job is not lower after [send_message] than before. *)
Definition watermark_never_decreases
    (dumps : pyobj -> exn + bytes) (f : Faults) (now : Z) (message : pyobj)
    (w : World) : Prop :=
  forall j,
    scheduling_job_id (self w) = Some j ->
    row_le (event_progress (db w) !! j)
           (event_progress
              (db (snd (send_message dumps f now message w))) !! j).

(** The world after the producer has sent the second sample event. *)
Definition world_after_v2 : World :=
  snd (send_message sample_dumps no_faults 5 (PyEvent event_v2) world0).

(** ** The bounded pop, as the specification words it *)

(** "Pop with a fixed short bounded wait (1 time unit); returns nothing on
    expiry": the head of the queue if there is one, else the message that
    arrives during the wait, else [None]. *)
Definition spec_get_identified_message (arrival : option IdentifiedMessage)
  : M World pyobj :=
  fun w =>
    match queue (self w), arrival with
    | im :: rest, _ => (Returns (PyIdentified im), with_queue rest w)
    | [], Some im => (Returns (PyIdentified im), w)
    | [], None => (Returns PyNone, w)
    end.

(** The identified message a send leaves in the queue carries the payload
    of what was sent. *)
Definition carries (dumps : pyobj -> exn + bytes) (op : send_op)
    (im : IdentifiedMessage) : Prop :=
  match op with
  | ViaSendMessage _ _ message => dumps message = inr (serialized_message im)
  | ViaSendIdentified im' => im = im'
  end.

(** A queue whose head is corrupt (an empty payload) and whose second
    message is the first sample event. *)
Definition world_corrupt_head : World :=
  with_queue [mkIdentifiedMessage [] 3; mkIdentifiedMessage [x01] 4] world0.

(** ** Replaying messages, and what the queue refers to *)

(** A caller that replays messages one after the other through
    [send_identified_message], as recovery does. *)
Fixpoint send_identified_messages (ims : list IdentifiedMessage)
  : M World pyobj :=
  match ims with
  | [] => ret PyNone
  | im :: rest =>
      run send_identified_message im then send_identified_messages rest
  end.

(** [im] refers to a committed row of the [message] table: same id, same
    payload. *)
Definition backed (d : Database) (im : IdentifiedMessage) : Prop :=
  exists envelope,
    envelope ∈ messages d /\
    message_id envelope = msg_id im /\
    message_data envelope = serialized_message im.

(** Every queued message refers to a committed row. *)
Definition queue_backed (w : World) : Prop :=
  Forall (backed (db w)) (queue (self w)).

Definition KeyboardInterrupt : exn := mkExn "KeyboardInterrupt" false.

(** A [pickle.loads] that is interrupted from the keyboard. *)
Definition interrupted_loads (b : bytes) : exn + pyobj :=
  inl KeyboardInterrupt.

(** * Workflow metadata (ai_flow/meta/workflow_meta.py) *)

Module WorkflowMeta.

Section WithControlEdge.

(** [WorkflowAction], [EventCondition] and [Properties] are declared outside
    these sources. Actions are compared with [==] and [!=], conditions and
    properties are only stored. *)
Context {WorkflowAction : Type} `{!EqDecision WorkflowAction}.
Context {EventCondition Properties : Type}.

(** [WorkflowSchedulingRule(event_condition, action)], the holder of the two
    attributes the code reads: [rule.event_condition] and [rule.action]. *)
Record WorkflowSchedulingRule := mkWorkflowSchedulingRule {
  event_condition : EventCondition;
  action : WorkflowAction
}.

(** The attributes of a [WorkflowMeta] object; [None] where Python has
    [None]. *)
Record t := mk {
  name : string;
  project_id : Z;
  properties : option Properties;
  create_time : option Z;
  update_time : option Z;
  uuid : option Z;
  context_extractor_in_bytes : option bytes;
  graph : option string;
  scheduling_rules : option (list WorkflowSchedulingRule)
}.

(** [WorkflowMeta.__init__]: a missing list of rules becomes the empty
    list. *)
Definition __init__ (name : string) (project_id : Z)
    (properties : option Properties) (create_time update_time : option Z)
    (context_extractor_in_bytes : option bytes) (graph : option string)
    (uuid : option Z)
    (scheduling_rules : option (list WorkflowSchedulingRule)) : t :=
  mk name project_id properties create_time update_time uuid
     context_extractor_in_bytes graph
     (Some (match scheduling_rules with
            | None => []
            | Some rules => rules
            end)).

(** [get_condition]: the conditions of the rules with this action, in the
    order of the rules. *)
Definition get_condition (self : t) (a : WorkflowAction)
  : list EventCondition :=
  match scheduling_rules self with
  | None => []
  | Some rules =>
      event_condition <$> filter (fun rule => action rule = a) rules
  end.

(** [update_condition]: the rules of other actions, then one new rule per
    condition. *)
Definition update_condition (event_conditions : list EventCondition)
    (a : WorkflowAction) (self : t) : t :=
  let scheduling_rules :=
    match scheduling_rules self with
    | Some rules => rules
    | None => []
    end in
  let new_scheduling_rules :=
    filter (fun rule => action rule <> a) scheduling_rules in
  let new_scheduling_rules :=
    new_scheduling_rules ++
    ((fun condition => mkWorkflowSchedulingRule condition a)
       <$> event_conditions) in
  mk (name self) (project_id self) (properties self) (create_time self)
     (update_time self) (uuid self) (context_extractor_in_bytes self)
     (graph self) (Some new_scheduling_rules).

(** [create_workflow], for a [project_id] that is an [int] already (on
    which [int(project_id)] is the identity). *)
Definition create_workflow (name : string) (project_id : Z)
    (properties : option Properties) (create_time update_time : option Z)
    (context_extractor_in_bytes : option bytes) (graph : option string) : t :=
  __init__ name project_id properties create_time update_time
           context_extractor_in_bytes graph None None.

End WithControlEdge.

Arguments WorkflowSchedulingRule : clear implicits.
Arguments t : clear implicits.

End WorkflowMeta.

(** A workflow with one rule for stopping and one for starting; actions are
    named by strings, conditions by numbers. *)
Definition sample_workflow : WorkflowMeta.t string Z unit :=
  WorkflowMeta.__init__ "wf" 1 None None None None None None
    (Some [WorkflowMeta.mkWorkflowSchedulingRule 9 "STOP";
           WorkflowMeta.mkWorkflowSchedulingRule 8 "START"]).

(** * Properties *)

(** ** What one call of the persistence path does *)

(** The upsert touches the [event_progress] table only. *)
Lemma next_message_id_upsert k p d :
  next_message_id (upsert_progress k p d) = next_message_id d.
Proof. destruct k; reflexivity. Qed.

Lemma messages_upsert k p d :
  messages (upsert_progress k p d) = messages d.
Proof. destruct k; reflexivity. Qed.

Lemma next_message_id_advance mb message d :
  next_message_id (advance_watermark mb message d) = next_message_id d.
Proof.
  unfold advance_watermark.
  destruct (progress_of message); auto using next_message_id_upsert.
Qed.

Lemma messages_advance mb message d :
  messages (advance_watermark mb message d) = messages d.
Proof.
  unfold advance_watermark.
  destruct (progress_of message); auto using messages_upsert.
Qed.

Section SendFacts.

Variable dumps : pyobj -> exn + bytes.

(** On a fresh session [_save_message_to_db] either commits the watermark and
    the envelope together and returns the envelope's reference, or raises
    and leaves the committed database as it was. It never blocks. *)
Lemma save_message_to_db_cases f now mb message d :
  match _save_message_to_db dumps f now mb message (mkSession d d) with
  | (Returns im, s) =>
      exists data,
        dumps message = inr data /\
        im = mkIdentifiedMessage data (next_message_id d) /\
        committed s =
          record_envelope mb now data (advance_watermark mb message d)
  | (Raises _, s) => committed s = d
  | (Blocks, _) => False
  end.
Proof.
  unfold _save_message_to_db, save_message_body, try_except, advance_watermark.
  destruct f as [[em|] [ea|] [ec|]];
    destruct (progress_of message) as [p|];
    destruct (dumps message) as [ed|data] eqn:Hd;
    cbn; rewrite ?Hd; cbn;
    repeat match goal with
           | |- context [is_Exception ?e] => destruct (is_Exception e); cbn
           end;
    try reflexivity; exists data;
    unfold record_envelope, envelope_of;
    rewrite ?next_message_id_upsert; auto.
Qed.

(** The same for the whole of [send_message]: a return is always [None],
    after the commit and the push at the tail; a raise leaves both the store
    and the mailbox untouched. *)
Lemma send_message_cases f now message w :
  match send_message dumps f now message w with
  | (Returns r, w') =>
      r = PyNone /\
      exists data,
        dumps message = inr data /\
        db w' = record_envelope (self w) now data
                  (advance_watermark (self w) message (db w)) /\
        self w' =
          mkMailbox
            (queue (self w) ++
               [mkIdentifiedMessage data (next_message_id (db w))])
            (scheduling_job_id (self w))
  | (Raises _, w') => db w' = db w /\ self w' = self w
  | (Blocks, _) => False
  end.
Proof.
  pose proof (save_message_to_db_cases f now (self w) message (db w)) as H.
  unfold send_message, provide_session, bind, gets, log_warning, modify, ret.
  destruct (negb (truthy (scheduling_job_id (self w)))); cbn;
    destruct (_save_message_to_db dumps f now (self w) message
                (mkSession (db w) (db w))) as [[im|e|] s]; cbn; auto;
    destruct H as (data & Hd & -> & Hs); (split; [reflexivity|]);
    exists data; cbn; auto.
Qed.

End SendFacts.

(** ** C1: the value of [send_message] *)

(** C1, as stated, fails: sending the first sample event to a new mailbox
    commits its envelope, and the call evaluates to [None]. *)
Lemma send_message_returns_identified_fails :
  ~ send_message_returns_identified sample_dumps no_faults 5
      (PyEvent event_v1) world0.
Proof.
  intros H.
  destruct (H PyNone
              (snd (send_message sample_dumps no_faults 5
                      (PyEvent event_v1) world0)) eq_refl)
    as (envelope & _ & Hr).
  discriminate Hr.
Qed.

(** C1 (amended): a send accepted without a persistence failure returns
    [None]; the identified message built from the committed envelope (its
    id and its serialized payload) is not returned but appended at the tail
    of the in-memory queue. *)
Theorem send_message_returns_none_and_enqueues
    (dumps : pyobj -> exn + bytes) (f : Faults) (now : Z) (message : pyobj)
    (w w' : World) (r : pyobj) :
  send_message dumps f now message w = (Returns r, w') ->
  r = PyNone /\
  exists envelope,
    messages (db w') = messages (db w) ++ [envelope] /\
    dumps message = inr (message_data envelope) /\
    queue (self w') =
      queue (self w) ++
        [mkIdentifiedMessage (message_data envelope) (message_id envelope)].
Proof.
  intros Hsend.
  pose proof (send_message_cases dumps f now message w) as H.
  rewrite Hsend in H. destruct H as (-> & data & Hd & Hdb & Hself).
  split; [reflexivity|].
  exists (envelope_of (self w) now data
            (advance_watermark (self w) message (db w))).
  rewrite Hdb, Hself. cbn.
  rewrite messages_advance, next_message_id_advance. auto.
Qed.

Lemma send_message_returns_none_and_enqueues_witness :
  exists envelope,
    messages (db (snd (send_message sample_dumps no_faults 5
                         (PyEvent event_v1) world0))) = [envelope] /\
    queue (self (snd (send_message sample_dumps no_faults 5
                        (PyEvent event_v1) world0))) =
      [mkIdentifiedMessage (message_data envelope) (message_id envelope)].
Proof.
  destruct (send_message_returns_none_and_enqueues sample_dumps no_faults 5
              (PyEvent event_v1) world0
              (snd (send_message sample_dumps no_faults 5
                      (PyEvent event_v1) world0))
              PyNone eq_refl)
    as (_ & envelope & Hm & _ & Hq).
  exists envelope. split; [exact Hm | exact Hq].
Defined.

(** ** C2: a failed persistence transaction leaves nothing behind *)

(** C2: when the persistence transaction inside [send_message] fails with
    [e], [send_message] raises [e] to its caller, the session has committed
    nothing, the store is the one before the call (neither the envelope row
    nor the progress row is there) and the mailbox, hence its queue, is
    unchanged. *)
Theorem send_message_failure_leaves_no_state
    (dumps : pyobj -> exn + bytes) (f : Faults) (now : Z) (message : pyobj)
    (w : World) (e : exn) (s : Session) :
  _save_message_to_db dumps f now (self w) message (mkSession (db w) (db w))
    = (Raises e, s) ->
  committed s = db w /\
  fst (send_message dumps f now message w) = Raises e /\
  db (snd (send_message dumps f now message w)) = db w /\
  self (snd (send_message dumps f now message w)) = self w.
Proof.
  intros Hsave.
  pose proof (save_message_to_db_cases dumps f now (self w) message (db w))
    as Hc.
  rewrite Hsave in Hc.
  unfold send_message, provide_session, bind, gets, log_warning, modify, ret.
  destruct (negb (truthy (scheduling_job_id (self w)))); cbn;
    rewrite Hsave; cbn; auto.
Qed.

Lemma send_message_failure_leaves_no_state_witness :
  fst (send_message sample_dumps outage 5 (PyEvent event_v1) world0)
    = Raises StoreFailure /\
  db (snd (send_message sample_dumps outage 5 (PyEvent event_v1) world0))
    = fresh_db /\
  self (snd (send_message sample_dumps outage 5 (PyEvent event_v1) world0))
    = mkMailbox [] (Some 1).
Proof.
  destruct (send_message_failure_leaves_no_state sample_dumps outage 5
              (PyEvent event_v1) world0 StoreFailure
              (snd (_save_message_to_db sample_dumps outage 5 (self world0)
                      (PyEvent event_v1) (mkSession fresh_db fresh_db)))
              eq_refl)
    as (_ & Hr & Hdb & Hself).
  repeat split; assumption.
Defined.

(** ** C3: the watermark and the envelope are committed together *)

(** The progress table after a send that returns. *)
Lemma progress_table_after_send dumps f now e w j :
  scheduling_job_id (self w) = Some j ->
  match send_message dumps f now (PyEvent e) w with
  | (Returns _, w') =>
      event_progress (db w') =
        match version e, create_time e with
        | Some v, Some t =>
            <[j := mkEventProgress t v]> (event_progress (db w))
        | _, _ => event_progress (db w)
        end
  | _ => True
  end.
Proof.
  intros Hj.
  pose proof (send_message_cases dumps f now (PyEvent e) w) as H.
  destruct (send_message dumps f now (PyEvent e) w) as [[r|x|] w']; auto.
  destruct H as (_ & data & _ & Hdb & _). rewrite Hdb. cbn.
  unfold advance_watermark, progress_of. rewrite Hj.
  destruct (version e), (create_time e); reflexivity.
Qed.

(** When the payload pickles and the store refuses none of the steps the
    send takes, [send_message] goes through. *)
Lemma send_message_goes_through dumps f now message w data :
  dumps message = inr data ->
  merge_fault f = None \/ progress_of message = None ->
  add_fault f = None ->
  commit_fault f = None ->
  fst (send_message dumps f now message w) = Returns PyNone.
Proof.
  intros Hd Hmerge Hadd Hcommit.
  unfold send_message, provide_session, _save_message_to_db,
    save_message_body, try_except, session_merge, session_add,
    session_commit, Queue_put, log_warning, fail_with, lift_result, bind,
    gets, modify, raise, ret.
  cbn beta. rewrite Hd, Hadd, Hcommit.
  destruct (negb (truthy (scheduling_job_id (self w))));
    destruct Hmerge as [-> | ->]; try destruct (progress_of message);
    reflexivity.
Qed.

(** C3: for a mailbox bound to job [j] and an event [e]: when the payload
    pickles and the store refuses none of the steps, [send_message] commits
    the envelope ([QUEUED], job [j], queue time [now]) and, in the same
    commit, [j]'s progress row set to [(create_time, version)] exactly when
    [e] carries both (a merge fault cannot matter when it does not). In
    general a [send_message] that returns has committed both, and one that
    raises has committed neither: the row moves only together with the
    envelope. *)
Theorem progress_upsert_commits_with_envelope
    (dumps : pyobj -> exn + bytes) (f : Faults) (now : Z) (e : BaseEvent)
    (w : World) (j : Z) :
  scheduling_job_id (self w) = Some j ->
  (forall data,
     dumps (PyEvent e) = inr data ->
     merge_fault f = None \/ version e = None \/ create_time e = None ->
     add_fault f = None ->
     commit_fault f = None ->
     exists w',
       send_message dumps f now (PyEvent e) w = (Returns PyNone, w') /\
       messages (db w') =
         messages (db w) ++
           [mkMessage (next_message_id (db w)) data QUEUED (Some j) now] /\
       event_progress (db w') =
         match version e, create_time e with
         | Some v, Some t =>
             <[j := mkEventProgress t v]> (event_progress (db w))
         | _, _ => event_progress (db w)
         end) /\
  match send_message dumps f now (PyEvent e) w with
  | (Returns _, w') =>
      (exists data,
         dumps (PyEvent e) = inr data /\
         messages (db w') =
           messages (db w) ++
             [mkMessage (next_message_id (db w)) data QUEUED (Some j) now]) /\
      event_progress (db w') =
        match version e, create_time e with
        | Some v, Some t =>
            <[j := mkEventProgress t v]> (event_progress (db w))
        | _, _ => event_progress (db w)
        end
  | (Raises _, w') => db w' = db w
  | (Blocks, _) => False
  end.
Proof.
  intros Hj.
  assert (Hcases :
    match send_message dumps f now (PyEvent e) w with
    | (Returns r, w') =>
        r = PyNone /\
        (exists data,
           dumps (PyEvent e) = inr data /\
           messages (db w') =
             messages (db w) ++
               [mkMessage (next_message_id (db w)) data QUEUED (Some j) now])
        /\
        event_progress (db w') =
          match version e, create_time e with
          | Some v, Some t =>
              <[j := mkEventProgress t v]> (event_progress (db w))
          | _, _ => event_progress (db w)
          end
    | (Raises _, w') => db w' = db w
    | (Blocks, _) => False
    end).
  { pose proof (send_message_cases dumps f now (PyEvent e) w) as H.
    destruct (send_message dumps f now (PyEvent e) w) as [[r|x|] w']; auto.
    - destruct H as (-> & data & Hd & Hdb & _). rewrite Hdb.
      unfold record_envelope, envelope_of.
      cbn [messages event_progress next_message_id].
      rewrite messages_advance, next_message_id_advance, Hj.
      split; [reflexivity|]. split.
      + exists data. auto.
      + unfold advance_watermark, progress_of. rewrite Hj.
        destruct (version e), (create_time e); reflexivity.
    - tauto. }
  split.
  - intros data Hd Hmerge Hadd Hcommit.
    assert (Hm : merge_fault f = None \/ progress_of (PyEvent e) = None).
    { destruct Hmerge as [Hm | [Hv | Ht]]; [left; exact Hm | |];
        right; cbn; rewrite ?Hv, ?Ht; [|destruct (version e)]; reflexivity. }
    pose proof (send_message_goes_through dumps f now (PyEvent e) w data
                  Hd Hm Hadd Hcommit) as Hret.
    destruct (send_message dumps f now (PyEvent e) w) as [[r|x|] w'];
      cbn in Hret; try discriminate Hret.
    destruct Hcases as (-> & (data' & Hd' & Hmsg) & Hrow).
    exists w'. split; [reflexivity|]. split; [|exact Hrow].
    rewrite Hd in Hd'. injection Hd' as <-. exact Hmsg.
  - destruct (send_message dumps f now (PyEvent e) w) as [[r|x|] w']; auto.
    destruct Hcases as (_ & Hmsg & Hrow). auto.
Qed.

Lemma progress_upsert_commits_with_envelope_witness :
  fst (send_message sample_dumps no_faults 5 (PyEvent event_v1) world0)
    = Returns PyNone /\
  messages
    (db (snd (send_message sample_dumps no_faults 5 (PyEvent event_v1)
                world0)))
    = [mkMessage 1 [x01] QUEUED (Some 1) 5] /\
  event_progress
    (db (snd (send_message sample_dumps no_faults 5 (PyEvent event_v1)
                world0)))
    = <[1 := mkEventProgress 100 1]> ∅.
Proof.
  destruct (proj1 (progress_upsert_commits_with_envelope sample_dumps
                     no_faults 5 event_v1 world0 1 eq_refl)
              [x01] eq_refl (or_introl eq_refl) eq_refl eq_refl)
    as (w' & Hsend & Hmsg & Hrow).
  rewrite Hsend. cbn [fst snd].
  split; [reflexivity|]. split; [exact Hmsg | exact Hrow].
Defined.

(** ** C4: the progress row under one producer *)

Lemma row_le_refl a : row_le a a.
Proof. destruct a; cbn; unfold progress_le; auto with zarith. Qed.

Lemma row_le_trans a b c : row_le a b -> row_le b c -> row_le a c.
Proof.
  destruct a, b, c; cbn; unfold progress_le; try tauto; lia.
Qed.

Lemma in_order_lower a b ms : row_le a b -> in_order b ms -> in_order a ms.
Proof.
  revert a b. induction ms as [|m rest IH]; intros a b Hab; cbn; [tauto|].
  destruct (progress_of m) as [p|].
  - intros [Hb Hrest]. split; [eapply row_le_trans; eassumption | exact Hrest].
  - apply IH. exact Hab.
Qed.

(** One send either leaves the row of the bound job alone or overwrites it
    with the pair the message carries; the binding itself stays. *)
Lemma row_after_send dumps f now message w j :
  scheduling_job_id (self w) = Some j ->
  scheduling_job_id (self (snd (send_message dumps f now message w)))
    = Some j /\
  (event_progress (db (snd (send_message dumps f now message w))) !! j
     = event_progress (db w) !! j \/
   exists p,
     progress_of message = Some p /\
     fst (send_message dumps f now message w) = Returns PyNone /\
     event_progress (db (snd (send_message dumps f now message w))) !! j
       = Some p).
Proof.
  intros Hj.
  pose proof (send_message_cases dumps f now message w) as H.
  destruct (send_message dumps f now message w) as [[r|x|] w']; cbn.
  - destruct H as (-> & data & _ & Hdb & Hself).
    rewrite Hdb, Hself. cbn. split; [exact Hj|].
    unfold advance_watermark.
    destruct (progress_of message) as [p|]; [right | left; reflexivity].
    exists p. rewrite Hj. cbn. rewrite lookup_insert_eq. auto.
  - destruct H as [-> ->]. auto.
  - contradiction.
Qed.

(** C4, as stated, fails: with the row of job 1 at (200, 2), sending the
    first sample event, which carries (100, 1), lowers the row. *)
Lemma watermark_never_decreases_fails :
  ~ watermark_never_decreases sample_dumps no_faults 6 (PyEvent event_v1)
      world_after_v2.
Proof.
  intros H. specialize (H 1 eq_refl).
  assert (Hbefore : event_progress (db world_after_v2) !! 1
                    = Some (mkEventProgress 200 2))
    by (vm_compute; reflexivity).
  assert (Hafter : event_progress
                     (db (snd (send_message sample_dumps no_faults 6
                                 (PyEvent event_v1) world_after_v2))) !! 1
                   = Some (mkEventProgress 100 1))
    by (vm_compute; reflexivity).
  rewrite Hbefore, Hafter in H. destruct H as [H _]. cbn in H. lia.
Qed.

(** C4 (amended): [send_message] overwrites the row of the bound job with
    the pair the event carries, without comparing. So after a successful
    send of an event with [(t, v)] the row is exactly [(t, v)], which gives
    [last_event_time >= t] and [last_event_version >= v]; and over a run of
    sends by one producer the row never decreases provided the pairs the
    messages carry come in non-decreasing order, starting at or above the
    row already stored. *)
Theorem watermark_follows_the_producer
    (dumps : pyobj -> exn + bytes) (j : Z) (w : World) :
  scheduling_job_id (self w) = Some j ->
  (forall sends,
     in_order (event_progress (db w) !! j) (map snd sends) ->
     non_decreasing (event_progress (db w) !! j)
                    (ledger_trace dumps j sends w)) /\
  (forall f now e t v r w',
     create_time e = Some t ->
     version e = Some v ->
     send_message dumps f now (PyEvent e) w = (Returns r, w') ->
     exists p,
       event_progress (db w') !! j = Some p /\
       p = mkEventProgress t v /\
       t <= last_event_time p /\ v <= last_event_version p).
Proof.
  intros Hj. split.
  - intros sends. revert w Hj.
    induction sends as [|[[f now] message] rest IH]; intros w Hj;
      cbn [ledger_trace non_decreasing in_order map snd]; [tauto|].
    destruct (row_after_send dumps f now message w j Hj) as [Hj' Hrow].
    intros Hord.
    destruct Hrow as [Hsame | (p & Hp & _ & Hnew)].
    + rewrite Hsame. split; [apply row_le_refl|].
      rewrite <- Hsame. apply IH; [exact Hj'|]. rewrite Hsame.
      destruct (progress_of message) as [p|]; [|exact Hord].
      destruct Hord as [Hle Hrest].
      eapply in_order_lower; eassumption.
    + rewrite Hp in Hord. destruct Hord as [Hle Hrest].
      rewrite Hnew. split; [exact Hle|].
      rewrite <- Hnew. apply IH; [exact Hj'|]. rewrite Hnew. exact Hrest.
  - intros f now e t v r w' Ht Hv Hsend.
    pose proof (progress_table_after_send dumps f now e w j Hj)
      as H.
    rewrite Hsend in H. rewrite Hv, Ht in H.
    exists (mkEventProgress t v). rewrite H, lookup_insert_eq. cbn.
    repeat split; lia.
Qed.

Lemma watermark_follows_the_producer_witness :
  non_decreasing (event_progress (db world0) !! 1)
    (ledger_trace sample_dumps 1
       [(no_faults, 5, PyEvent event_v1); (outage, 6, PyEvent event_v2);
        (no_faults, 7, PyNone); (no_faults, 8, PyEvent event_v2)]
       world0).
Proof.
  destruct (watermark_follows_the_producer sample_dumps 1 world0 eq_refl)
    as [Hrun _].
  apply Hrun. cbn. unfold progress_le. cbn. repeat split; lia.
Defined.

(** ** C5: the bounded wait never raises *)

(** Whatever [queue.get] raises derives from [Exception]. *)
Lemma Queue_get_raises_Exception timeout arrival w e w' :
  Queue_get timeout arrival w = (Raises e, w') -> is_Exception e = true.
Proof.
  unfold Queue_get, bind, gets, wait_on_empty, pop_head, modify, raise, ret.
  destruct timeout as [|t|x];
    try destruct (negb (Qle_bool 0 t)); try destruct (float_overflows t);
    destruct (queue (self w)); try destruct arrival; cbn;
    intros [= <- _]; reflexivity.
Qed.

(** C5: for every timeout argument [get_message_with_timeout] never raises;
    with a timeout, an empty queue and nothing arriving it returns [None]
    and changes nothing; and whatever the inner [queue.get] raises (the
    expiry [Empty], or the refusal of the argument) comes out as [None]. *)
Theorem get_message_with_timeout_never_raises
    (timeout : timeout_arg) (arrival : option IdentifiedMessage) (w : World) :
  (forall e, fst (get_message_with_timeout timeout arrival w) <> Raises e) /\
  (timeout <> TNone -> queue (self w) = [] -> arrival = None ->
   get_message_with_timeout timeout arrival w = (Returns PyNone, w)) /\
  (forall e w',
     Queue_get timeout arrival w = (Raises e, w') ->
     get_message_with_timeout timeout arrival w = (Returns PyNone, w')).
Proof.
  assert (Hconv : forall e w',
            Queue_get timeout arrival w = (Raises e, w') ->
            get_message_with_timeout timeout arrival w = (Returns PyNone, w')).
  { intros e w' Hget.
    pose proof (Queue_get_raises_Exception _ _ _ _ _ Hget) as He.
    unfold get_message_with_timeout, try_except, bind.
    rewrite Hget, He. reflexivity. }
  split; [|split; [|exact Hconv]].
  - intros e Hr.
    destruct (Queue_get timeout arrival w) as [[im|x|] w1] eqn:Hget.
    + unfold get_message_with_timeout, try_except, bind in Hr.
      rewrite Hget in Hr. discriminate Hr.
    + rewrite (Hconv x w1 eq_refl) in Hr. discriminate Hr.
    + unfold get_message_with_timeout, try_except, bind in Hr.
      rewrite Hget in Hr. discriminate Hr.
  - intros Ht Hq ->.
    unfold get_message_with_timeout, try_except, Queue_get, bind, gets,
      wait_on_empty, raise, ret.
    cbn beta. rewrite Hq.
    destruct timeout as [|t|x]; [contradiction| |reflexivity].
    destruct (negb (Qle_bool 0 t)); [reflexivity|].
    destruct (float_overflows t); reflexivity.
Qed.

(** ** C6: a corrupt payload is dropped, not raised *)

Lemma Queue_get_blocking_cons arrival w im rest :
  queue (self w) = im :: rest ->
  Queue_get TNone arrival w = (Returns im, with_queue rest w).
Proof.
  intros Hq. unfold Queue_get, bind, gets. cbn beta. rewrite Hq. reflexivity.
Qed.

(** C6: when the payload of the message at the head of the queue fails to
    deserialize, [get_message] returns [None] and logs the error; the
    message is gone from the queue and the messages behind it, the binding
    and the store are as they were. *)
Theorem get_message_drops_corrupt_message
    (loads : bytes -> exn + pyobj) (arrival : option IdentifiedMessage)
    (w : World) (im : IdentifiedMessage) (rest : list IdentifiedMessage)
    (e : exn) :
  queue (self w) = im :: rest ->
  loads (serialized_message im) = inl e ->
  is_Exception e = true ->
  get_message loads arrival w =
    (Returns PyNone,
     mkWorld (mkMailbox rest (scheduling_job_id (self w))) (db w)
       (log w ++
          [LogError "Error occurred when load message from database, %s" e])).
Proof.
  intros Hq Hload He.
  unfold get_message, bind.
  rewrite (Queue_get_blocking_cons arrival w im rest Hq).
  unfold try_except, lift_result, raise.
  rewrite Hload, He. reflexivity.
Qed.

Lemma get_message_drops_corrupt_message_witness :
  get_message sample_loads None world_corrupt_head =
    (Returns PyNone,
     mkWorld (mkMailbox [mkIdentifiedMessage [x01] 4] (Some 1)) fresh_db
       [LogError "Error occurred when load message from database, %s"
                 EOFError]).
Proof.
  exact (get_message_drops_corrupt_message sample_loads None
           world_corrupt_head (mkIdentifiedMessage [] 3)
           [mkIdentifiedMessage [x01] 4] EOFError eq_refl eq_refl eq_refl).
Defined.

(** ** C7: [get_identified_message] is the bounded wait at timeout 1 *)

Lemma get_identified_message_spec_pop arrival w :
  get_identified_message arrival w = spec_get_identified_message arrival w.
Proof.
  unfold get_identified_message, get_message_with_timeout,
    spec_get_identified_message, try_except, Queue_get, wait_on_empty,
    pop_head, bind, gets, modify, raise, ret.
  cbn. destruct (queue (self w)), arrival; reflexivity.
Qed.


(** ** C8: first in, first out for one producer and one consumer *)

Lemma get_identified_message_cons arrival w im rest :
  queue (self w) = im :: rest ->
  get_identified_message arrival w
    = (Returns (PyIdentified im), with_queue rest w).
Proof.
  intros Hq. rewrite get_identified_message_spec_pop.
  unfold spec_get_identified_message. rewrite Hq. reflexivity.
Qed.

Lemma get_message_cons loads arrival w im rest o :
  queue (self w) = im :: rest ->
  loads (serialized_message im) = inr o ->
  get_message loads arrival w = (Returns o, with_queue rest w).
Proof.
  intros Hq Hload. unfold get_message, bind.
  rewrite (Queue_get_blocking_cons arrival w im rest Hq).
  unfold try_except, lift_result, ret. rewrite Hload. reflexivity.
Qed.

(** A consumer that pops as many times as messages are queued gets them
    from the head to the tail. *)
Lemma drain_identified q : forall w,
  queue (self w) = q ->
  fst (drain (get_identified_message None) (List.length q) w)
    = Returns (map PyIdentified q).
Proof.
  induction q as [|im rest IH]; intros w Hq; [reflexivity|].
  cbn [List.length drain map]. unfold bind at 1.
  rewrite (get_identified_message_cons None w im rest Hq).
  specialize (IH (with_queue rest w) eq_refl).
  unfold bind at 1.
  destruct (drain (get_identified_message None) (List.length rest)
              (with_queue rest w)) as [[xs|x|] w1];
    cbn in IH; try discriminate IH.
  injection IH as ->. reflexivity.
Qed.

(** A send that returns has put exactly one message at the tail. *)
Lemma produce_appends dumps op w r w1 :
  produce dumps op w = (Returns r, w1) ->
  exists im,
    queue (self w1) = queue (self w) ++ [im] /\ carries dumps op im.
Proof.
  destruct op as [f now message | im]; cbn [produce carries].
  - intros Hsend.
    pose proof (send_message_cases dumps f now message w) as H.
    rewrite Hsend in H. destruct H as (_ & data & Hd & _ & Hself).
    exists (mkIdentifiedMessage data (next_message_id (db w))).
    rewrite Hself. auto.
  - intros [= _ <-]. exists im. auto.
Qed.

Lemma carries_delivers dumps loads op im o :
  (forall m b, dumps m = inr b -> loads b = inr m) ->
  carries dumps op im -> delivers loads op o ->
  loads (serialized_message im) = inr o.
Proof.
  intros Hrt. destruct op as [f now message | im']; cbn.
  - intros Hc ->. apply Hrt. exact Hc.
  - intros -> Hd. exact Hd.
Qed.

(** C8: when a producer's send of [e1] and then of [e2] through the same
    mailbox both return (by [send_message] or [send_identified_message]),
    the two messages sit at the tail of the queue in that order; a consumer
    popping with [get_identified_message] receives the earlier messages,
    then the message of [e1], then the message of [e2]; and on a mailbox
    that was empty a consumer calling [get_message] twice receives [e1] and
    then [e2] ([pickle.loads] undoing [pickle.dumps]). *)
Theorem single_pair_fifo
    (dumps : pyobj -> exn + bytes) (loads : bytes -> exn + pyobj)
    (op1 op2 : send_op) (e1 e2 r1 r2 : pyobj) (w w1 w2 : World) :
  (forall m b, dumps m = inr b -> loads b = inr m) ->
  produce dumps op1 w = (Returns r1, w1) ->
  produce dumps op2 w1 = (Returns r2, w2) ->
  delivers loads op1 e1 ->
  delivers loads op2 e2 ->
  exists im1 im2,
    queue (self w2) = queue (self w) ++ [im1; im2] /\
    loads (serialized_message im1) = inr e1 /\
    loads (serialized_message im2) = inr e2 /\
    fst (drain (get_identified_message None)
           (List.length (queue (self w)) + 2) w2)
      = Returns (map PyIdentified (queue (self w))
                   ++ [PyIdentified im1; PyIdentified im2]) /\
    (queue (self w) = [] ->
     fst (drain (get_message loads None) 2 w2) = Returns [e1; e2]).
Proof.
  intros Hrt Hs1 Hs2 Hd1 Hd2.
  destruct (produce_appends dumps op1 w r1 w1 Hs1) as (im1 & Hq1 & Hc1).
  destruct (produce_appends dumps op2 w1 r2 w2 Hs2) as (im2 & Hq2 & Hc2).
  pose proof (carries_delivers dumps loads op1 im1 e1 Hrt Hc1 Hd1) as Hl1.
  pose proof (carries_delivers dumps loads op2 im2 e2 Hrt Hc2 Hd2) as Hl2.
  assert (Hq : queue (self w2) = queue (self w) ++ [im1; im2]).
  { rewrite Hq2, Hq1, <- app_assoc. reflexivity. }
  exists im1, im2. repeat split; try assumption.
  - pose proof (drain_identified (queue (self w2)) w2 eq_refl) as Hdrain.
    rewrite Hq, length_app, map_app in Hdrain. exact Hdrain.
  - intros Hempty. rewrite Hempty in Hq. cbn in Hq.
    cbn [drain]. unfold bind at 1.
    rewrite (get_message_cons loads None w2 im1 [im2] e1 Hq Hl1).
    unfold bind at 1. unfold bind at 1.
    rewrite (get_message_cons loads None (with_queue [im2] w2) im2 [] e2
               eq_refl Hl2).
    reflexivity.
Qed.

Lemma sample_pickle_round_trip m b :
  sample_dumps m = inr b -> sample_loads b = inr m.
Proof.
  destruct m as [|e|im|x]; cbn; try discriminate.
  - intros [= <-]. reflexivity.
  - repeat case_decide; intros [= <-]; subst; reflexivity.
Qed.

Lemma single_pair_fifo_witness :
  exists im1 im2,
    queue (self (snd (send_identified_message (mkIdentifiedMessage [x02] 9)
                        (snd (send_message sample_dumps no_faults 5
                                (PyEvent event_v1) world0)))))
      = [im1; im2] /\
    fst (drain (get_message sample_loads None) 2
           (snd (send_identified_message (mkIdentifiedMessage [x02] 9)
                   (snd (send_message sample_dumps no_faults 5
                           (PyEvent event_v1) world0)))))
      = Returns [PyEvent event_v1; PyEvent event_v2].
Proof.
  destruct (single_pair_fifo sample_dumps sample_loads
              (ViaSendMessage no_faults 5 (PyEvent event_v1))
              (ViaSendIdentified (mkIdentifiedMessage [x02] 9))
              (PyEvent event_v1) (PyEvent event_v2) PyNone PyNone
              world0
              (snd (send_message sample_dumps no_faults 5
                      (PyEvent event_v1) world0))
              (snd (send_identified_message (mkIdentifiedMessage [x02] 9)
                      (snd (send_message sample_dumps no_faults 5
                              (PyEvent event_v1) world0))))
              sample_pickle_round_trip eq_refl eq_refl eq_refl eq_refl)
    as (im1 & im2 & Hq & _ & _ & _ & Hget).
  exists im1, im2. split; [exact Hq | exact (Hget eq_refl)].
Defined.

(** ** C9: [send_identified_message] only touches the queue *)

(** C9: [send_identified_message] returns [None] in a world that differs
    from the one before only by [im] at the tail of the queue: the store,
    the binding, the log and the messages already queued, in their order,
    are the same. In particular a message that was just popped from the
    head re-enters at the tail, with the store untouched. *)
Theorem send_identified_message_only_appends
    (im : IdentifiedMessage) (w : World) :
  send_identified_message im w =
    (Returns PyNone,
     mkWorld (mkMailbox (queue (self w) ++ [im]) (scheduling_job_id (self w)))
             (db w) (log w)) /\
  (forall arrival rest,
     queue (self w) = im :: rest ->
     (run get_identified_message arrival then send_identified_message im) w =
       (Returns PyNone,
        mkWorld (mkMailbox (rest ++ [im]) (scheduling_job_id (self w)))
                (db w) (log w))).
Proof.
  split; [reflexivity|].
  intros arrival rest Hq. unfold bind.
  rewrite (get_identified_message_cons arrival w im rest Hq). reflexivity.
Qed.

(** ** C10: [None] from [get_message] has two meanings *)

(** C10: a queued message whose payload deserializes to [None] and a queued
    message whose payload fails to deserialize both make [get_message]
    return [None], and both are gone from the queue afterwards: the value
    returned does not tell the two apart. *)
Theorem get_message_none_is_ambiguous
    (loads : bytes -> exn + pyobj) (arrival : option IdentifiedMessage)
    (w : World) (im_none im_corrupt : IdentifiedMessage) (e : exn) :
  loads (serialized_message im_none) = inr PyNone ->
  loads (serialized_message im_corrupt) = inl e ->
  is_Exception e = true ->
  fst (get_message loads arrival (with_queue [im_none] w)) = Returns PyNone /\
  fst (get_message loads arrival (with_queue [im_corrupt] w))
    = Returns PyNone /\
  self (snd (get_message loads arrival (with_queue [im_none] w)))
    = self (snd (get_message loads arrival (with_queue [im_corrupt] w))).
Proof.
  intros Hnone Hcorrupt He.
  rewrite (get_message_cons loads arrival (with_queue [im_none] w) im_none []
             PyNone eq_refl Hnone).
  unfold get_message, bind.
  rewrite (Queue_get_blocking_cons arrival (with_queue [im_corrupt] w)
             im_corrupt [] eq_refl).
  unfold try_except, lift_result, raise.
  rewrite Hcorrupt, He. cbn. auto.
Qed.

Lemma get_message_none_is_ambiguous_witness :
  fst (get_message sample_loads None
         (with_queue [mkIdentifiedMessage [x80; x04; x4e; x2e] 7] world0))
    = Returns PyNone /\
  fst (get_message sample_loads None
         (with_queue [mkIdentifiedMessage [] 8] world0))
    = Returns PyNone.
Proof.
  destruct (get_message_none_is_ambiguous sample_loads None world0
              (mkIdentifiedMessage [x80; x04; x4e; x2e] 7)
              (mkIdentifiedMessage [] 8) EOFError eq_refl eq_refl eq_refl)
    as (Hn & Hc & _).
  split; assumption.
Defined.

(** * Further properties of the mailbox *)

(** ** What retrieval leaves alone *)

(** [queue.get] changes nothing but the queue, from which it takes at most
    the head. *)
Lemma Queue_get_frame timeout arrival w :
  db (snd (Queue_get timeout arrival w)) = db w /\
  log (snd (Queue_get timeout arrival w)) = log w /\
  scheduling_job_id (self (snd (Queue_get timeout arrival w)))
    = scheduling_job_id (self w) /\
  (queue (self (snd (Queue_get timeout arrival w))) = queue (self w) \/
   exists im,
     queue (self w) = im :: queue (self (snd (Queue_get timeout arrival w)))).
Proof.
  unfold Queue_get, wait_on_empty, pop_head, bind, gets, modify, raise, ret,
    block.
  cbn beta.
  destruct timeout as [|t|x];
    try destruct (negb (Qle_bool 0 t)); try destruct (float_overflows t);
    destruct (queue (self w)) as [|im rest] eqn:Hq; try destruct arrival;
    cbn; rewrite ?Hq; repeat split; eauto.
Qed.

Lemma get_message_frame loads arrival w :
  db (snd (get_message loads arrival w)) = db w /\
  scheduling_job_id (self (snd (get_message loads arrival w)))
    = scheduling_job_id (self w) /\
  (queue (self (snd (get_message loads arrival w))) = queue (self w) \/
   exists im,
     queue (self w) = im :: queue (self (snd (get_message loads arrival w)))).
Proof.
  pose proof (Queue_get_frame TNone arrival w) as H.
  unfold get_message, bind.
  destruct (Queue_get TNone arrival w) as [[im|e|] w1]; cbn in H |- *;
    try (destruct H as (? & _ & ? & ?); auto; fail).
  unfold try_except, lift_result, raise, ret, log_error, bind, modify.
  destruct (loads (serialized_message im)) as [e|o];
    [destruct (is_Exception e)|]; cbn; destruct H as (? & _ & ? & ?); auto.
Qed.

Lemma get_message_with_timeout_frame timeout arrival w :
  db (snd (get_message_with_timeout timeout arrival w)) = db w /\
  log (snd (get_message_with_timeout timeout arrival w)) = log w /\
  scheduling_job_id (self (snd (get_message_with_timeout timeout arrival w)))
    = scheduling_job_id (self w) /\
  (queue (self (snd (get_message_with_timeout timeout arrival w)))
     = queue (self w) \/
   exists im,
     queue (self w)
       = im :: queue (self (snd (get_message_with_timeout timeout arrival w)))).
Proof.
  pose proof (Queue_get_frame timeout arrival w) as H.
  unfold get_message_with_timeout, try_except, bind, ret.
  destruct (Queue_get timeout arrival w) as [[im|e|] w1]; cbn in H |- *;
    [| destruct (is_Exception e) |]; cbn; exact H.
Qed.

(** X1: no retrieval method touches the store or the binding, whatever it
    returns: a dequeued envelope stays in the [message] table as it was
    committed, still [QUEUED]. *)
Theorem retrieval_leaves_store
    (loads : bytes -> exn + pyobj) (timeout : timeout_arg)
    (arrival : option IdentifiedMessage) (w : World) :
  (db (snd (get_message loads arrival w)) = db w /\
   scheduling_job_id (self (snd (get_message loads arrival w)))
     = scheduling_job_id (self w)) /\
  (db (snd (get_message_with_timeout timeout arrival w)) = db w /\
   scheduling_job_id
     (self (snd (get_message_with_timeout timeout arrival w)))
     = scheduling_job_id (self w)) /\
  (db (snd (get_identified_message arrival w)) = db w /\
   scheduling_job_id (self (snd (get_identified_message arrival w)))
     = scheduling_job_id (self w)).
Proof.
  pose proof (get_message_frame loads arrival w) as (H1 & H2 & _).
  pose proof (get_message_with_timeout_frame timeout arrival w)
    as (H3 & _ & H4 & _).
  pose proof (get_message_with_timeout_frame (TNum 1) arrival w)
    as (H5 & _ & H6 & _).
  unfold get_identified_message. auto.
Qed.

(** ** Edge cases of the two waits *)

(** X2: on an empty mailbox [get_message] does not return as long as nothing
    arrives, where [get_identified_message] returns [None]; when a message
    arrives during the wait, [get_message] returns what its payload decodes
    to. In each case the world is left as it was. *)
Theorem get_message_waits_on_empty
    (loads : bytes -> exn + pyobj) (w : World) :
  queue (self w) = [] ->
  get_message loads None w = (Blocks, w) /\
  get_identified_message None w = (Returns PyNone, w) /\
  (forall im o,
     loads (serialized_message im) = inr o ->
     get_message loads (Some im) w = (Returns o, w)).
Proof.
  intros Hq. repeat split.
  - unfold get_message, Queue_get, wait_on_empty, bind, gets, block.
    cbn beta. rewrite Hq. reflexivity.
  - rewrite get_identified_message_spec_pop.
    unfold spec_get_identified_message. rewrite Hq. reflexivity.
  - intros im o Hload.
    unfold get_message, Queue_get, wait_on_empty, bind, gets, ret.
    cbn beta. rewrite Hq. unfold try_except, lift_result, ret.
    rewrite Hload. reflexivity.
Qed.

Lemma get_message_waits_on_empty_witness :
  get_message sample_loads None world0 = (Blocks, world0) /\
  get_identified_message None world0 = (Returns PyNone, world0).
Proof.
  destruct (get_message_waits_on_empty sample_loads world0 eq_refl)
    as (Hb & Hn & _).
  split; assumption.
Defined.

(** X3: a timeout that [queue.get] refuses (a negative number, or an object
    that does not compare with 0) makes [get_message_with_timeout] return
    [None] even when messages are queued; none of them is taken. *)
Theorem refused_timeout_returns_none
    (arrival : option IdentifiedMessage) (w : World) :
  (forall t, (t < 0)%Q ->
     get_message_with_timeout (TNum t) arrival w = (Returns PyNone, w)) /\
  (forall x,
     get_message_with_timeout (TOther x) arrival w = (Returns PyNone, w)).
Proof.
  split; [|reflexivity].
  intros t Ht.
  assert (Hb : Qle_bool 0 t = false).
  { destruct (Qle_bool 0 t) eqn:Hle; [|reflexivity].
    apply Qle_bool_iff in Hle. exfalso. revert Hle. apply Qlt_not_le.
    exact Ht. }
  unfold get_message_with_timeout, try_except, Queue_get, bind, gets, raise.
  cbn beta. rewrite Hb. reflexivity.
Qed.

(** X4: when [pickle.loads] raises something that is not an [Exception]
    (a [KeyboardInterrupt], say), [get_message] raises it to the caller
    without logging; the message has left the queue all the same. *)
Theorem get_message_propagates_non_exception
    (loads : bytes -> exn + pyobj) (arrival : option IdentifiedMessage)
    (w : World) (im : IdentifiedMessage) (rest : list IdentifiedMessage)
    (e : exn) :
  queue (self w) = im :: rest ->
  loads (serialized_message im) = inl e ->
  is_Exception e = false ->
  get_message loads arrival w = (Raises e, with_queue rest w).
Proof.
  intros Hq Hload He. unfold get_message, bind.
  rewrite (Queue_get_blocking_cons arrival w im rest Hq).
  unfold try_except, lift_result, raise. rewrite Hload, He. reflexivity.
Qed.

Lemma get_message_propagates_non_exception_witness :
  get_message interrupted_loads None world_corrupt_head =
    (Raises KeyboardInterrupt,
     with_queue [mkIdentifiedMessage [x01] 4] world_corrupt_head).
Proof.
  exact (get_message_propagates_non_exception interrupted_loads None
           world_corrupt_head (mkIdentifiedMessage [] 3)
           [mkIdentifiedMessage [x01] 4] KeyboardInterrupt
           eq_refl eq_refl eq_refl).
Defined.

(** ** Depth of the queue *)

(** X5: [length] counts the sends: a send that returns, by either method,
    makes the mailbox one message longer; a [send_message] that raises
    leaves its length as it was. *)
Theorem length_counts_sends
    (dumps : pyobj -> exn + bytes) (op : send_op) (w : World) (n : Z) :
  length w = (Returns n, w) ->
  match produce dumps op w with
  | (Returns _, w') => length w' = (Returns (n + 1), w')
  | (Raises _, w') => length w' = (Returns n, w')
  | (Blocks, _) => False
  end.
Proof.
  unfold length, gets. intros [= <-].
  destruct op as [f now message | im]; cbn [produce].
  - pose proof (send_message_cases dumps f now message w) as H.
    destruct (send_message dumps f now message w) as [[r|e|] w']; auto.
    + destruct H as (_ & data & _ & _ & ->). cbn.
      rewrite length_app. cbn. do 2 f_equal. lia.
    + destruct H as [_ ->]. reflexivity.
  - cbn. rewrite length_app. cbn. do 2 f_equal. lia.
Qed.

Lemma length_counts_sends_witness :
  match produce sample_dumps
          (ViaSendMessage no_faults 5 (PyEvent event_v1)) world0 with
  | (Returns _, w') => length w' = (Returns (0 + 1), w')
  | (Raises _, w') => length w' = (Returns 0, w')
  | (Blocks, _) => False
  end.
Proof.
  exact (length_counts_sends sample_dumps
           (ViaSendMessage no_faults 5 (PyEvent event_v1)) world0 0 eq_refl).
Defined.

(** X6: with a non-negative timeout that fits a [float] and nothing
    arriving, a bounded pop on a mailbox of length [n > 0] returns its head
    and leaves length [n - 1], and on a mailbox of length 0 it returns
    [None] and the length stays 0. With a non-negative timeout too large
    for a [float] it returns [None] and takes nothing, queued messages or
    not. *)
Theorem length_counts_pops
    (timeout : Q) (w : World) (n : Z) :
  (0 <= timeout)%Q ->
  length w = (Returns n, w) ->
  if float_overflows timeout
  then get_message_with_timeout (TNum timeout) None w = (Returns PyNone, w)
  else
    match get_message_with_timeout (TNum timeout) None w with
    | (Returns (PyIdentified im), w') =>
        0 < n /\ head (queue (self w)) = Some im /\
        length w' = (Returns (n - 1), w')
    | (Returns PyNone, w') => n = 0 /\ w' = w
    | _ => False
    end.
Proof.
  intros Ht. apply Qle_bool_iff in Ht.
  unfold length, gets. intros [= <-].
  unfold get_message_with_timeout, try_except, Queue_get, wait_on_empty,
    pop_head, bind, gets, modify, raise, ret.
  cbn beta. rewrite Ht. cbn [negb].
  destruct (float_overflows timeout); [reflexivity|].
  destruct (queue (self w)) as [|im rest]; cbn; [auto|].
  split; [lia|]. split; [reflexivity|]. do 2 f_equal. lia.
Qed.

Lemma length_counts_pops_witness :
  get_message_with_timeout (TNum 1) None world_corrupt_head
    = (Returns (PyIdentified (mkIdentifiedMessage [] 3)),
       with_queue [mkIdentifiedMessage [x01] 4] world_corrupt_head) /\
  length (with_queue [mkIdentifiedMessage [x01] 4] world_corrupt_head)
    = (Returns (2 - 1),
       with_queue [mkIdentifiedMessage [x01] 4] world_corrupt_head).
Proof.
  assert (H01 : (0 <= 1)%Q) by discriminate.
  pose proof (length_counts_pops 1 world_corrupt_head 2 H01 eq_refl) as H.
  change (float_overflows 1) with false in H.
  change (get_message_with_timeout (TNum 1) None world_corrupt_head)
    with (Returns (PyIdentified (mkIdentifiedMessage [] 3)),
          with_queue [mkIdentifiedMessage [x01] 4] world_corrupt_head) in H.
  cbv beta iota in H. destruct H as (_ & _ & Hlen).
  split; [reflexivity | exact Hlen].
Defined.

(** ** The warning about a missing binding *)

(** X7: [send_message] logs its warning exactly when no job is bound or the
    bound id is 0, which Python also takes for false; it logs it before the
    store is reached, so also when the send then fails, and it logs nothing
    else. *)
Theorem send_message_warns_when_unbound
    (dumps : pyobj -> exn + bytes) (f : Faults) (now : Z) (message : pyobj)
    (w : World) :
  (scheduling_job_id (self w) = None \/ scheduling_job_id (self w) = Some 0 ->
   log (snd (send_message dumps f now message w)) =
     log w ++
       [LogWarning
          "scheduling_job_id not set, missing messages cannot be recovered."])
  /\
  (forall j, scheduling_job_id (self w) = Some j -> j <> 0 ->
   log (snd (send_message dumps f now message w)) = log w).
Proof.
  assert (Hlog : forall w0 : World,
            log (snd (bind (provide_session
                              (_save_message_to_db dumps f now (self w)
                                 message))
                        (fun im => run Queue_put im then ret PyNone) w0))
            = log w0).
  { intros w0. unfold bind, provide_session, Queue_put, modify, ret.
    destruct (_save_message_to_db dumps f now (self w) message
                (mkSession (db w0) (db w0))) as [[im|e|] s]; reflexivity. }
  split.
  - intros Hunbound.
    assert (Ht : truthy (scheduling_job_id (self w)) = false)
      by (destruct Hunbound as [-> | ->]; reflexivity).
    unfold send_message. unfold bind at 1. unfold gets. cbn beta iota.
    rewrite Ht. cbn [negb]. unfold bind at 1. unfold log_warning, modify.
    cbn beta iota. rewrite Hlog. reflexivity.
  - intros j Hj Hnz.
    assert (Ht : truthy (scheduling_job_id (self w)) = true).
    { rewrite Hj. cbn. apply negb_true_iff, Z.eqb_neq. exact Hnz. }
    unfold send_message. unfold bind at 1. unfold gets. cbn beta iota.
    rewrite Ht. cbn [negb]. unfold bind at 1. unfold ret at 1.
    cbn beta iota. rewrite Hlog. reflexivity.
Qed.

(** ** What a send leaves alone *)

(** The key a merge writes to is never the key of a row that another job
    already has. *)
Lemma progress_key_other k d j p0 :
  k <> Some j -> event_progress d !! j = Some p0 -> progress_key k d <> j.
Proof.
  destruct k as [i|]; cbn; [congruence|].
  intros _ Hrow Heq.
  apply (is_fresh (dom (event_progress d))).
  rewrite Heq. apply elem_of_dom. exists p0. exact Hrow.
Qed.

(** X8: whatever its outcome, [send_message] keeps every envelope already
    in the [message] table, in place and unchanged, keeps every progress row
    that a job other than the bound one already has, and keeps the binding;
    with a job bound, the progress table changes at that job's key at
    most. *)
Theorem send_message_keeps_other_rows
    (dumps : pyobj -> exn + bytes) (f : Faults) (now : Z) (message : pyobj)
    (w : World) :
  messages (db w)
    `prefix_of` messages (db (snd (send_message dumps f now message w))) /\
  (forall j p0,
     scheduling_job_id (self w) <> Some j ->
     event_progress (db w) !! j = Some p0 ->
     event_progress (db (snd (send_message dumps f now message w))) !! j
       = Some p0) /\
  (forall k j,
     scheduling_job_id (self w) = Some k ->
     j <> k ->
     event_progress (db (snd (send_message dumps f now message w))) !! j
       = event_progress (db w) !! j) /\
  scheduling_job_id (self (snd (send_message dumps f now message w)))
    = scheduling_job_id (self w).
Proof.
  pose proof (send_message_cases dumps f now message w) as H.
  destruct (send_message dumps f now message w) as [[r|e|] w'];
    cbn [snd]; [| destruct H as [-> ->]; auto | contradiction].
  destruct H as (_ & data & _ & -> & ->).
  unfold record_envelope, envelope_of.
  cbn [messages event_progress self scheduling_job_id].
  rewrite messages_advance. split; [apply prefix_app_r; reflexivity|].
  unfold advance_watermark, upsert_progress.
  destruct (progress_of message) as [p|]; cbn [event_progress]; [|auto].
  split; [|split; [|reflexivity]].
  - intros j p0 Hj Hrow. rewrite lookup_insert_ne; [exact Hrow|].
    eapply progress_key_other; eassumption.
  - intros k j -> Hjk. cbn. apply lookup_insert_ne. congruence.
Qed.

(** X9: a message that is not a [BaseEvent] never moves the progress table,
    whatever attributes it has; when the send returns, its envelope is
    stored all the same, [QUEUED], under the bound job and the current
    time. *)
Theorem non_event_message_keeps_progress
    (dumps : pyobj -> exn + bytes) (f : Faults) (now : Z) (message : pyobj)
    (w : World) :
  (forall e, message <> PyEvent e) ->
  event_progress (db (snd (send_message dumps f now message w)))
    = event_progress (db w) /\
  (forall r w',
     send_message dumps f now message w = (Returns r, w') ->
     exists data,
       dumps message = inr data /\
       messages (db w') =
         messages (db w) ++
           [mkMessage (next_message_id (db w)) data QUEUED
                      (scheduling_job_id (self w)) now]).
Proof.
  intros Hne.
  assert (Hp : progress_of message = None).
  { destruct message; try reflexivity. destruct (Hne e). reflexivity. }
  pose proof (send_message_cases dumps f now message w) as H.
  unfold advance_watermark in H. rewrite Hp in H.
  destruct (send_message dumps f now message w) as [[r|e|] w'];
    cbn [snd]; [| | contradiction].
  - destruct H as (_ & data & Hd & Hdb & _). rewrite Hdb.
    split; [reflexivity|].
    intros r0 w0 [= _ <-]. exists data. rewrite Hdb. auto.
  - destruct H as [-> _]. split; [reflexivity | discriminate].
Qed.

Lemma non_event_message_keeps_progress_witness :
  event_progress
    (db (snd (send_message sample_dumps no_faults 6 PyNone world_after_v2)))
    = event_progress (db world_after_v2).
Proof.
  refine (proj1 (non_event_message_keeps_progress sample_dumps no_faults 6
                   PyNone world_after_v2 _)).
  discriminate.
Defined.

(** X10: [send_message] stamps the envelope with the binding in force at the
    call: after [set_scheduling_job_id j], a send that returns has stored an
    envelope whose job is [j], and the mailbox stays bound to [j]. *)
Theorem send_message_uses_current_binding
    (dumps : pyobj -> exn + bytes) (f : Faults) (now : Z) (message : pyobj)
    (j : option Z) (w w' : World) (r : pyobj) :
  (run set_scheduling_job_id j then send_message dumps f now message) w
    = (Returns r, w') ->
  scheduling_job_id (self w') = j /\
  exists envelope,
    messages (db w') = messages (db w) ++ [envelope] /\
    message_scheduling_job_id envelope = j /\
    message_state envelope = QUEUED /\
    message_queue_time envelope = now.
Proof.
  assert (Hset : set_scheduling_job_id j w =
                 (Returns PyNone,
                  mkWorld (mkMailbox (queue (self w)) j) (db w) (log w)))
    by reflexivity.
  unfold bind at 1. rewrite Hset.
  set (w1 := mkWorld (mkMailbox (queue (self w)) j) (db w) (log w)).
  intros Hsend.
  pose proof (send_message_cases dumps f now message w1) as H.
  rewrite Hsend in H.
  destruct H as (_ & data & _ & -> & ->). subst w1.
  unfold record_envelope, envelope_of.
  cbn [messages db self scheduling_job_id].
  rewrite messages_advance.
  split; [reflexivity|]. eexists. split; [reflexivity|]. cbn. auto.
Qed.

Lemma send_message_uses_current_binding_witness :
  exists envelope,
    messages
      (db (snd ((run set_scheduling_job_id (Some 7) then
                 send_message sample_dumps no_faults 5 (PyEvent event_v1))
                  world0)))
      = [envelope] /\
    message_scheduling_job_id envelope = Some 7.
Proof.
  destruct (send_message_uses_current_binding sample_dumps no_faults 5
              (PyEvent event_v1) (Some 7) world0
              (snd ((run set_scheduling_job_id (Some 7) then
                     send_message sample_dumps no_faults 5
                       (PyEvent event_v1)) world0))
              PyNone eq_refl)
    as (_ & envelope & Hm & Hj & _).
  exists envelope. split; [exact Hm | exact Hj].
Defined.

(** ** Replay *)

Lemma send_identified_messages_appends ims : forall w,
  send_identified_messages ims w
    = (Returns PyNone, with_queue (queue (self w) ++ ims) w).
Proof.
  induction ims as [|im rest IH]; intros w.
  - destruct w as [[q j] d l]. unfold with_queue. cbn.
    rewrite app_nil_r. reflexivity.
  - cbn [send_identified_messages]. unfold bind at 1.
    assert (Hone : send_identified_message im w
                   = (Returns PyNone, with_queue (queue (self w) ++ [im]) w))
      by reflexivity.
    rewrite Hone, IH. unfold with_queue. cbn.
    rewrite <- app_assoc. reflexivity.
Qed.

(** X11: replaying a list of messages through [send_identified_message] puts
    them behind the queued ones in the order of the list and touches
    neither the store, the binding nor the log; on a mailbox that was empty
    a consumer then pops them in that same order. *)
Theorem replay_restores_order
    (ims : list IdentifiedMessage) (w : World) :
  send_identified_messages ims w
    = (Returns PyNone, with_queue (queue (self w) ++ ims) w) /\
  (queue (self w) = [] ->
   fst (drain (get_identified_message None) (List.length ims)
          (snd (send_identified_messages ims w)))
     = Returns (map PyIdentified ims)).
Proof.
  split; [apply send_identified_messages_appends|].
  intros Hq. rewrite send_identified_messages_appends, Hq. cbn [snd app].
  apply drain_identified. reflexivity.
Qed.

(** ** The queue refers to committed envelopes *)

Lemma backed_prefix d d' im :
  messages d `prefix_of` messages d' -> backed d im -> backed d' im.
Proof.
  intros [k Hk] (envelope & Hin & Hid & Hdata).
  exists envelope. rewrite Hk. set_solver.
Qed.

(** X12: if every queued message refers to a committed envelope (same id,
    same payload), this still holds after [send_message], whatever its
    outcome, and after each retrieval method; [send_identified_message]
    keeps it when the message it is given refers to a committed envelope. *)
Theorem queue_backed_is_kept
    (dumps : pyobj -> exn + bytes) (loads : bytes -> exn + pyobj)
    (f : Faults) (now : Z) (message : pyobj) (timeout : timeout_arg)
    (arrival : option IdentifiedMessage) (w : World) :
  queue_backed w ->
  queue_backed (snd (send_message dumps f now message w)) /\
  queue_backed (snd (get_message loads arrival w)) /\
  queue_backed (snd (get_message_with_timeout timeout arrival w)) /\
  (forall im,
     backed (db w) im -> queue_backed (snd (send_identified_message im w))).
Proof.
  unfold queue_backed. intros Hw.
  assert (Htail : forall w' : World,
            db w' = db w ->
            (queue (self w') = queue (self w) \/
             exists im, queue (self w) = im :: queue (self w')) ->
            Forall (backed (db w')) (queue (self w'))).
  { intros w' -> [-> | [im Hq]]; [exact Hw|].
    rewrite Hq in Hw. eapply Forall_cons_1. exact Hw. }
  repeat split.
  - pose proof (send_message_cases dumps f now message w) as H.
    destruct (send_message dumps f now message w) as [[r|e|] w'];
      cbn [snd]; [| destruct H as [-> ->]; exact Hw | contradiction].
    destruct H as (_ & data & _ & Hdb & ->). cbn [queue].
    assert (Hpre : messages (db w) `prefix_of` messages (db w')).
    { rewrite Hdb. cbn. rewrite messages_advance.
      apply prefix_app_r. reflexivity. }
    apply Forall_app. split.
    + eapply Forall_impl; [exact Hw|].
      intros im. apply backed_prefix. exact Hpre.
    + apply Forall_singleton. rewrite Hdb.
      exists (envelope_of (self w) now data
                (advance_watermark (self w) message (db w))).
      cbn. rewrite next_message_id_advance. set_solver.
  - destruct (get_message_frame loads arrival w) as (Hdb & _ & Hq).
    apply Htail; assumption.
  - destruct (get_message_with_timeout_frame timeout arrival w)
      as (Hdb & _ & _ & Hq).
    apply Htail; assumption.
  - intros im Him. cbn. apply Forall_app. split; [exact Hw|].
    apply Forall_singleton. exact Him.
Qed.

Lemma queue_backed_is_kept_witness :
  queue_backed
    (snd (send_message sample_dumps no_faults 5 (PyEvent event_v1) world0)).
Proof.
  refine (proj1 (queue_backed_is_kept sample_dumps sample_loads no_faults 5
                   (PyEvent event_v1) (TNum 1) None world0 _)).
  apply Forall_nil_2.
Defined.

(** * Properties of the workflow metadata *)

Section WorkflowMetaFacts.

Context {WorkflowAction : Type} `{!EqDecision WorkflowAction}.
Context {EventCondition Properties : Type}.

Local Abbreviation rule :=
  (WorkflowMeta.WorkflowSchedulingRule WorkflowAction EventCondition).
Local Abbreviation workflow :=
  (WorkflowMeta.t WorkflowAction EventCondition Properties).
Local Abbreviation new_rule a :=
  (fun condition => WorkflowMeta.mkWorkflowSchedulingRule condition a).

(** The rules made for action [a] all have action [a]. *)
Lemma new_rules_selected (a b : WorkflowAction) (cs : list EventCondition) :
  filter (fun r : rule => WorkflowMeta.action r = b) (new_rule a <$> cs)
    = if decide (a = b) then new_rule a <$> cs else [].
Proof.
  induction cs as [|c cs IH]; [destruct (decide (a = b)); reflexivity|].
  rewrite fmap_cons, filter_cons, IH. cbn.
  destruct (decide (a = b)); reflexivity.
Qed.

Lemma new_rules_not_kept (a : WorkflowAction) (cs : list EventCondition) :
  filter (fun r : rule => WorkflowMeta.action r <> a) (new_rule a <$> cs)
    = [].
Proof.
  induction cs as [|c cs IH]; [reflexivity|].
  rewrite fmap_cons, filter_cons, IH. cbn.
  destruct (decide (a <> a)); [contradiction | reflexivity].
Qed.

(** Among the rules kept by an update for [a], those of action [b] are
    none when [b] is [a], and those of the original list otherwise. *)
Lemma kept_rules_selected (a b : WorkflowAction) (rules : list rule) :
  filter (fun r : rule => WorkflowMeta.action r = b)
         (filter (fun r : rule => WorkflowMeta.action r <> a) rules)
    = if decide (a = b) then []
      else filter (fun r : rule => WorkflowMeta.action r = b) rules.
Proof.
  induction rules as [|r rules IH]; [destruct (decide (a = b)); reflexivity|].
  rewrite !filter_cons.
  destruct (decide (WorkflowMeta.action r <> a)) as [Hne|Heq].
  - rewrite filter_cons, IH.
    destruct (decide (WorkflowMeta.action r = b)), (decide (a = b));
      congruence.
  - rewrite IH.
    destruct (decide (WorkflowMeta.action r = b)), (decide (a = b));
      try reflexivity.
    destruct Heq. congruence.
Qed.

Lemma kept_rules_idempotent (a : WorkflowAction) (rules : list rule) :
  filter (fun r : rule => WorkflowMeta.action r <> a)
         (filter (fun r : rule => WorkflowMeta.action r <> a) rules)
    = filter (fun r : rule => WorkflowMeta.action r <> a) rules.
Proof.
  induction rules as [|r rules IH]; [reflexivity|].
  rewrite filter_cons.
  destruct (decide (WorkflowMeta.action r <> a)) as [Hne|Heq]; [|exact IH].
  rewrite filter_cons, IH.
  destruct (decide (WorkflowMeta.action r <> a)); [reflexivity|contradiction].
Qed.

Lemma new_rules_conditions (a : WorkflowAction) (cs : list EventCondition) :
  WorkflowMeta.event_condition <$> (new_rule a <$> cs) = cs.
Proof.
  induction cs as [|c cs IH]; [reflexivity|].
  rewrite !fmap_cons, IH. reflexivity.
Qed.

(** What [get_condition] answers after one [update_condition]. *)
Lemma conditions_after_update (cs : list EventCondition)
    (a b : WorkflowAction) (wm : workflow) :
  WorkflowMeta.get_condition (WorkflowMeta.update_condition cs a wm) b
    = if decide (a = b) then cs else WorkflowMeta.get_condition wm b.
Proof.
  unfold WorkflowMeta.get_condition, WorkflowMeta.update_condition.
  cbn [WorkflowMeta.scheduling_rules].
  rewrite filter_app, kept_rules_selected, new_rules_selected.
  destruct (decide (a = b)).
  - cbn [app]. apply new_rules_conditions.
  - rewrite app_nil_r.
    destruct (WorkflowMeta.scheduling_rules wm); reflexivity.
Qed.

(** X13: after [update_condition(event_conditions, action)],
    [get_condition(action)] returns exactly [event_conditions], in their
    order: the older conditions of that action are gone. *)
Theorem get_condition_after_update_same
    (cs : list EventCondition) (a : WorkflowAction) (wm : workflow) :
  WorkflowMeta.get_condition (WorkflowMeta.update_condition cs a wm) a = cs.
Proof.
  rewrite conditions_after_update.
  destruct (decide (a = a)); [reflexivity | contradiction].
Qed.

(** X14: [update_condition] for one action does not change what
    [get_condition] returns for any other action. *)
Theorem get_condition_after_update_other
    (cs : list EventCondition) (a b : WorkflowAction) (wm : workflow) :
  a <> b ->
  WorkflowMeta.get_condition (WorkflowMeta.update_condition cs a wm) b
    = WorkflowMeta.get_condition wm b.
Proof.
  intros Hab. rewrite conditions_after_update.
  destruct (decide (a = b)); [contradiction | reflexivity].
Qed.

(** X15: a second [update_condition] for the same action overrides the
    first: the workflow is the one the second update alone gives. *)
Theorem update_condition_overrides
    (cs1 cs2 : list EventCondition) (a : WorkflowAction) (wm : workflow) :
  WorkflowMeta.update_condition cs2 a (WorkflowMeta.update_condition cs1 a wm)
    = WorkflowMeta.update_condition cs2 a wm.
Proof.
  unfold WorkflowMeta.update_condition. cbn.
  rewrite filter_app, kept_rules_idempotent, new_rules_not_kept, app_nil_r.
  reflexivity.
Qed.

(** X16: updates for two different actions can be made in either order:
    [get_condition] answers the same for every action afterwards. *)
Theorem update_condition_commutes
    (cs1 cs2 : list EventCondition) (a b c : WorkflowAction) (wm : workflow) :
  a <> b ->
  WorkflowMeta.get_condition
    (WorkflowMeta.update_condition cs1 a
       (WorkflowMeta.update_condition cs2 b wm)) c
  = WorkflowMeta.get_condition
      (WorkflowMeta.update_condition cs2 b
         (WorkflowMeta.update_condition cs1 a wm)) c.
Proof.
  intros Hab. rewrite !conditions_after_update.
  destruct (decide (a = c)), (decide (b = c)); congruence.
Qed.

End WorkflowMetaFacts.

Lemma get_condition_after_update_other_witness :
  WorkflowMeta.get_condition
    (WorkflowMeta.update_condition [1; 2] "START" sample_workflow) "STOP"
  = [9].
Proof.
  rewrite (get_condition_after_update_other [1; 2] "START" "STOP"
             sample_workflow); [reflexivity | discriminate].
Defined.

Lemma update_condition_commutes_witness :
  WorkflowMeta.get_condition
    (WorkflowMeta.update_condition [1; 2] "START"
       (WorkflowMeta.update_condition [3] "STOP" sample_workflow)) "STOP"
  = WorkflowMeta.get_condition
      (WorkflowMeta.update_condition [3] "STOP"
         (WorkflowMeta.update_condition [1; 2] "START" sample_workflow))
      "STOP".
Proof.
  apply (update_condition_commutes [1; 2] [3] "START" "STOP" "STOP"
           sample_workflow).
  discriminate.
Defined.
